(** * meshrender: the VirtualCamera of [meshrender_backup/camera.py]

    A shallow embedding of [VirtualCamera]: its constructor, the derived
    properties [V] and [P], and the mutating [resize].  Python floats are
    modelled by the reals [R] (rounding is not modelled); Python ints (the
    width and height of the intrinsics) by [Z].  Python exceptions are the
    constructors of [exn]; a raising computation returns [Raise]. *)

From Stdlib Require Import Reals Psatz ZArith String Bool Arith FunctionalExtensionality.
Open Scope R_scope.

(** ** Exceptions and the error monad *)

Inductive exn : Type :=
| ValueError
| AttributeError
| NameError
| ZeroDivisionError.

Inductive result (A : Type) : Type :=
| Ok (a : A)
| Raise (e : exn).
Arguments Ok {A} a.
Arguments Raise {A} e.

Definition bind {A B} (m : result A) (k : A -> result B) : result B :=
  match m with
  | Ok a => k a
  | Raise e => Raise e
  end.

Notation "x <- m ;; k" := (bind m (fun x => k))
  (at level 61, m at next level, right associativity).

(** Python's true division [a / b] of a float by an int: raises
    [ZeroDivisionError] when [b == 0]. *)
Definition div_int (a : R) (b : Z) : result R :=
  if Z.eqb b 0 then Raise ZeroDivisionError else Ok (a / IZR b).

(** Python's true division of two floats. *)
Definition div_float (a b : R) : result R :=
  if Req_EM_T b 0 then Raise ZeroDivisionError else Ok (a / b).

(** ** Matrices: numpy (4,4) float arrays *)

Definition mat := nat -> nat -> R.

(** [np.zeros((4,4))] *)
Definition zeros : mat := fun _ _ => 0.

(** [M[i][j] = v] *)
Definition mat_set (m : mat) (i j : nat) (v : R) : mat :=
  fun a b => if Nat.eqb a i && Nat.eqb b j then v else m a b.

(** [V_inv[:3,1:3] *= -1] on a copy of the pose. *)
Definition reflect_yz (m : mat) : mat :=
  fun a b => if Nat.ltb a 3 && Nat.leb 1 b && Nat.ltb b 3 then - m a b else m a b.

(** ** Data model *)

(** [perception.CameraIntrinsics], consumed as a value. *)
Record CameraIntrinsics : Type := mkIntrinsics {
  frame : string;
  fx : R;
  fy : R;
  cx : R;
  cy : R;
  skew : R;
  height : Z;
  width : Z
}.

(** A Python object passed as the [intrinsics] argument. *)
Inductive pyobj : Type :=
| PyNone
| PyIntrinsics (k : CameraIntrinsics)
| PyOther.

Record VirtualCamera : Type := mkCamera {
  intrinsics : CameraIntrinsics;
  pose : option mat;          (** [None] when constructed with [pose=None] *)
  z_near : R;
  z_far : R
}.

(** [VirtualCamera.__init__] *)
Definition new (i : pyobj) (p : option mat) (zn zf : R) : result VirtualCamera :=
  match i with
  | PyIntrinsics k => Ok (mkCamera k p zn zf)
  | _ => Raise ValueError
  end.

(** [cam.pose = p] *)
Definition set_pose (c : VirtualCamera) (p : option mat) : VirtualCamera :=
  mkCamera (intrinsics c) p (z_near c) (z_far c).

(** ** [VirtualCamera.V]

    [self.pose.copy()] raises [AttributeError] on [None]; the last step reads
    the name [V_inv_GL], which is bound nowhere in the module, so it raises
    [NameError] before [np.linalg.inv] is called. *)
Definition V (c : VirtualCamera) : result mat :=
  match pose c with
  | None => Raise AttributeError
  | Some p =>
      let V_inv := reflect_yz p in
      Raise NameError
  end.

(** ** [VirtualCamera.P] *)
Definition P (c : VirtualCamera) : result mat :=
  let k := intrinsics c in
  let zn := z_near c in
  let zf := z_far c in
  let P0 := zeros in
  p00 <- div_int (2 * fx k) (width k) ;;
  let P1 := mat_set P0 0 0 p00 in
  p11 <- div_int (2 * fy k) (height k) ;;
  let P2 := mat_set P1 1 1 p11 in
  q02 <- div_int (2 * cx k) (width k) ;;
  let P3 := mat_set P2 0 2 (1 - q02) in
  q12 <- div_int (2 * cy k) (height k) ;;
  let P4 := mat_set P3 1 2 (q12 - 1) in
  p22 <- div_float (- (zf + zn)) (zf - zn) ;;
  let P5 := mat_set P4 2 2 p22 in
  let P6 := mat_set P5 3 2 (-1) in
  p23 <- div_float (- (2 * zf * zn)) (zf - zn) ;;
  let P7 := mat_set P6 2 3 p23 in
  Ok P7.

(** ** [VirtualCamera.resize]

    A state transformer on the camera: the outcome and the camera after the
    call.  An exception leaves the camera as it was. *)
Definition resize (new_width new_height : Z) (c : VirtualCamera)
  : result unit * VirtualCamera :=
  let k := intrinsics c in
  match div_int (IZR new_width) (width k), div_int (IZR new_height) (height k) with
  | Raise e, _ => (Raise e, c)
  | Ok _, Raise e => (Raise e, c)
  | Ok x_scale, Ok y_scale =>
      let center_x := IZR (width k - 1) / 2 in
      let center_y := IZR (height k - 1) / 2 in
      let orig_cx_diff := cx k - center_x in
      let orig_cy_diff := cy k - center_y in
      let scaled_center_x := IZR (new_width - 1) / 2 in
      let scaled_center_y := IZR (new_height - 1) / 2 in
      let cx' := scaled_center_x + x_scale * orig_cx_diff in
      let cy' := scaled_center_y + y_scale * orig_cy_diff in
      let fx' := fx k * x_scale in
      let fy' := fy k * x_scale in
      let scaled_intrinsics :=
        mkIntrinsics (frame k) fx' fy' cx' cy' (skew k) new_height new_width in
      (Ok tt, mkCamera scaled_intrinsics (pose c) (z_near c) (z_far c))
  end.

(** ** The projection matrix as the spec lists it (for comparison with [P]) *)
Definition P_spec (c : VirtualCamera) : mat :=
  let k := intrinsics c in
  let zn := z_near c in
  let zf := z_far c in
  fun i j =>
    match i, j with
    | 0%nat, 0%nat => 2 * fx k / IZR (width k)
    | 1%nat, 1%nat => 2 * fy k / IZR (height k)
    | 0%nat, 2%nat => 1 - 2 * cx k / IZR (width k)
    | 1%nat, 2%nat => 2 * cy k / IZR (height k) - 1
    | 2%nat, 2%nat => - (zf + zn) / (zf - zn)
    | 3%nat, 2%nat => -1
    | 2%nat, 3%nat => -2 * zf * zn / (zf - zn)
    | _, _ => 0
    end.

(** ** Sample values *)

Definition K640 : CameraIntrinsics :=
  mkIntrinsics "camera" 500 500 320 240 0 480 640.

Definition K_zero_width : CameraIntrinsics :=
  mkIntrinsics "camera" 500 500 320 240 0 480 0.

Definition ident : mat := fun i j => if Nat.eqb i j then 1 else 0.

(** The intrinsics after [resize] as the spec describes them. *)
Definition resized_spec (k : CameraIntrinsics) (nw nh : Z) : CameraIntrinsics :=
  let x_scale := IZR nw / IZR (width k) in
  let y_scale := IZR nh / IZR (height k) in
  mkIntrinsics (frame k)
    (fx k * x_scale) (fy k * x_scale)
    ((IZR nw - 1) / 2 + x_scale * (cx k - (IZR (width k) - 1) / 2))
    ((IZR nh - 1) / 2 + y_scale * (cy k - (IZR (height k) - 1) / 2))
    (skew k) nh nw.

Definition cam640 : VirtualCamera := mkCamera K640 None (1/10) 10.

(** ** Consumers of [P]: clip coordinates and the viewport *)

(** [P @ [x, y, z, 1]]: the clip coordinates of a point in OpenGL camera
    coordinates (x right, y up, z towards the eye). *)
Definition clip (m : mat) (x y z : R) : nat -> R :=
  fun i => m i 0%nat * x + m i 1%nat * y + m i 2%nat * z + m i 3%nat * 1.

(** The OpenGL viewport mapping from clip coordinates to pixel coordinates
    of a [w] x [h] image whose rows are counted from the top. *)
Definition ndc_to_pixel (w h : Z) (cl : nat -> R) : R * R :=
  ((cl 0%nat / cl 3%nat + 1) * IZR w / 2, (1 - cl 1%nat / cl 3%nat) * IZR h / 2).

(** ** Helper lemmas *)

Lemma div_int_ok (a : R) (b : Z) : (b <> 0)%Z -> div_int a b = Ok (a / IZR b).
Proof.
  intros Hb. unfold div_int. destruct (Z.eqb_spec b 0); [contradiction | reflexivity].
Qed.

Lemma div_float_ok (a b : R) : b <> 0 -> div_float a b = Ok (a / b).
Proof.
  intros Hb. unfold div_float. destruct (Req_EM_T b 0); [contradiction | reflexivity].
Qed.

Lemma IZR_pos_neq (z : Z) : (0 < z)%Z -> IZR z <> 0.
Proof. intros H. apply not_0_IZR. lia. Qed.

Lemma Rminus_neq_0 (a b : R) : a <> b -> a - b <> 0.
Proof. intros H E. apply H. lra. Qed.

(** ** C1: the projection matrix *)

(** C1 (as stated fails): a camera whose intrinsics have width 0 (which the
    constructor accepts) and distinct clip distances: reading [P] raises
    [ZeroDivisionError] instead of returning the listed matrix. *)
Lemma P_zero_width_raises :
  ~ (forall c, z_far c <> z_near c -> P c = Ok (P_spec c)).
Proof.
  intros H.
  specialize (H (mkCamera K_zero_width None (1/10) 10)). simpl in H.
  assert (Hne : 10 <> 1 / 10) by lra.
  specialize (H Hne). unfold P in H. simpl in H.
  discriminate H.
Qed.

(** C1 (amended): for every camera whose intrinsics have positive width and
    height and whose clip distances differ, [P] returns the matrix with
    entries [2 fx/width], [2 fy/height], [1 - 2 cx/width], [2 cy/height - 1],
    [-(z_far+z_near)/(z_far-z_near)], [-1] at (3,2) and
    [-2 z_far z_near/(z_far-z_near)] at (2,3), and zero elsewhere; the skew
    is not used. *)
Theorem P_entries (c : VirtualCamera)
  (Hw : (0 < width (intrinsics c))%Z) (Hh : (0 < height (intrinsics c))%Z)
  (Hz : z_far c <> z_near c) :
  P c = Ok (P_spec c).
Proof.
  pose proof (IZR_pos_neq _ Hw) as Hw'. pose proof (IZR_pos_neq _ Hh) as Hh'.
  pose proof (Rminus_neq_0 _ _ Hz) as Hz'.
  unfold P.
  rewrite !div_int_ok by lia. simpl.
  rewrite !div_float_ok by exact Hz'. simpl.
  f_equal.
  apply functional_extensionality; intros i.
  apply functional_extensionality; intros j.
  unfold mat_set, zeros, P_spec.
  destruct i as [|[|[|[|i]]]]; destruct j as [|[|[|[|j]]]]; simpl;
    try reflexivity; field; auto.
Qed.

Lemma P_entries_witness :
  (0 < width K640)%Z /\ (0 < height K640)%Z /\ 10 <> 1 / 10 /\
  P (mkCamera K640 None (1/10) 10) = Ok (P_spec (mkCamera K640 None (1/10) 10)).
Proof.
  split; [reflexivity|]. split; [reflexivity|]. split; [lra|].
  apply P_entries; simpl; [reflexivity | reflexivity | lra].
Defined.

(** ** Resizing *)

Lemma resize_unfold (nw nh : Z) (c : VirtualCamera) :
  (width (intrinsics c) <> 0)%Z -> (height (intrinsics c) <> 0)%Z ->
  resize nw nh c =
  (Ok tt, mkCamera (resized_spec (intrinsics c) nw nh) (pose c) (z_near c) (z_far c)).
Proof.
  intros Hw Hh. unfold resize.
  rewrite (div_int_ok _ _ Hw), (div_int_ok _ _ Hh).
  unfold resized_spec. rewrite !minus_IZR. reflexivity.
Qed.

Lemma resize_zero_width (nw nh : Z) (c : VirtualCamera) :
  width (intrinsics c) = 0%Z -> resize nw nh c = (Raise ZeroDivisionError, c).
Proof.
  intros Hw. unfold resize. rewrite Hw. reflexivity.
Qed.

(** C2: with positive old width and height, [resize new_width new_height]
    succeeds and replaces the intrinsics by the ones with the new size, the
    principal point moved by the scaled offset from the geometric center,
    both focal lengths scaled by [new_width/width], and the same frame and
    skew. *)
Theorem resize_intrinsics (c : VirtualCamera) (new_width new_height : Z)
  (Hw : (0 < width (intrinsics c))%Z) (Hh : (0 < height (intrinsics c))%Z) :
  resize new_width new_height c =
  (Ok tt, mkCamera (resized_spec (intrinsics c) new_width new_height)
                   (pose c) (z_near c) (z_far c)).
Proof. apply resize_unfold; lia. Qed.

Lemma resize_intrinsics_witness :
  (0 < width (intrinsics cam640))%Z /\ (0 < height (intrinsics cam640))%Z /\
  resize 1280 960 cam640 =
  (Ok tt, mkCamera (resized_spec K640 1280 960) None (1/10) 10).
Proof.
  split; [reflexivity|]. split; [reflexivity|].
  apply (resize_intrinsics cam640 1280 960); reflexivity.
Defined.

(** C4 (as stated fails): resizing 640x480 with [cx = 320], [cy = 240],
    [fx = 500], [fy = 400] to 1280x960 gives [cx = 640.5] (the geometric
    center is [(width-1)/2]), not [640], and [fy = 800 = 2 fy_old], not
    [2 fx_old = 1000]. *)
Lemma resize_640_counterexample :
  let c := mkCamera (mkIntrinsics "camera" 500 400 320 240 0 480 640) None (1/10) 10 in
  cx (intrinsics (snd (resize 1280 960 c))) <> 640 /\
  fy (intrinsics (snd (resize 1280 960 c))) <> 2 * fx (intrinsics c).
Proof.
  cbv zeta. rewrite resize_unfold by (simpl; lia). simpl.
  unfold resized_spec. simpl. split; lra.
Qed.

(** C4 (amended): resizing a camera with width 640, height 480, [cx = 320],
    [cy = 240] to 1280x960 succeeds with [cx = 1281/2 = 640.5],
    [cy = 961/2 = 480.5], [fx = 2 fx_old] and [fy = 2 fy_old] (the
    horizontal factor, equal to the vertical one here, scales [fy]). *)
Theorem resize_640_to_1280 (c : VirtualCamera)
  (Hw : width (intrinsics c) = 640%Z) (Hh : height (intrinsics c) = 480%Z)
  (Hcx : cx (intrinsics c) = 320) (Hcy : cy (intrinsics c) = 240) :
  let r := resize 1280 960 c in
  fst r = Ok tt /\
  cx (intrinsics (snd r)) = 1281 / 2 /\
  cy (intrinsics (snd r)) = 961 / 2 /\
  fx (intrinsics (snd r)) = 2 * fx (intrinsics c) /\
  fy (intrinsics (snd r)) = 2 * fy (intrinsics c).
Proof.
  cbv zeta. rewrite resize_unfold by lia. simpl.
  unfold resized_spec. simpl. rewrite Hw, Hh, Hcx, Hcy.
  repeat split; try reflexivity; field.
Qed.

Lemma resize_640_to_1280_witness :
  let r := resize 1280 960 cam640 in
  fst r = Ok tt /\
  cx (intrinsics (snd r)) = 1281 / 2 /\
  cy (intrinsics (snd r)) = 961 / 2 /\
  fx (intrinsics (snd r)) = 2 * fx (intrinsics cam640) /\
  fy (intrinsics (snd r)) = 2 * fy (intrinsics cam640).
Proof. apply resize_640_to_1280; reflexivity. Defined.

(** C5 (as stated fails): resizing to width 0 and then to 1280x960: the
    second call raises [ZeroDivisionError] and leaves width 0, while a single
    resize to 1280x960 gives width 1280. *)
Lemma resize_twice_through_zero :
  ~ (forall (c : VirtualCamera) (w1 h1 w2 h2 : Z),
       (0 < width (intrinsics c))%Z -> (0 < height (intrinsics c))%Z ->
       intrinsics (snd (resize w2 h2 (snd (resize w1 h1 c)))) =
       intrinsics (snd (resize w2 h2 c))).
Proof.
  intros H.
  specialize (H cam640 0%Z 0%Z 1280%Z 960%Z).
  assert (E : width (intrinsics (snd (resize 1280 960 (snd (resize 0 0 cam640))))) =
              width (intrinsics (snd (resize 1280 960 cam640))))
    by (f_equal; apply H; reflexivity).
  rewrite (resize_unfold 0 0 cam640) in E by (simpl; lia).
  rewrite (resize_unfold 1280 960 cam640) in E by (simpl; lia).
  rewrite resize_zero_width in E by reflexivity.
  simpl in E. discriminate E.
Qed.

(** C5 (amended): from positive width and height, [resize w1 h1] with
    nonzero [w1], [h1] succeeds, and following it by [resize w2 h2] leaves
    the camera (intrinsics included) as a single [resize w2 h2] does, in
    exact arithmetic (floating-point results agree up to rounding). *)
Theorem resize_twice (c : VirtualCamera) (w1 h1 w2 h2 : Z)
  (Hw : (0 < width (intrinsics c))%Z) (Hh : (0 < height (intrinsics c))%Z)
  (Hw1 : w1 <> 0%Z) (Hh1 : h1 <> 0%Z) :
  fst (resize w1 h1 c) = Ok tt /\
  resize w2 h2 (snd (resize w1 h1 c)) = resize w2 h2 c.
Proof.
  pose proof (IZR_pos_neq _ Hw) as Hw'. pose proof (IZR_pos_neq _ Hh) as Hh'.
  assert (Hw1' : IZR w1 <> 0) by (apply not_0_IZR; exact Hw1).
  assert (Hh1' : IZR h1 <> 0) by (apply not_0_IZR; exact Hh1).
  rewrite (resize_unfold w1 h1 c) by lia. split; [reflexivity|].
  simpl. rewrite resize_unfold by (simpl; assumption).
  rewrite (resize_unfold w2 h2 c) by lia.
  unfold resized_spec; simpl.
  do 3 f_equal; field; auto.
Qed.

Lemma resize_twice_witness :
  (0 < width (intrinsics cam640))%Z /\ (0 < height (intrinsics cam640))%Z /\
  fst (resize 320 240 cam640) = Ok tt /\
  resize 1280 960 (snd (resize 320 240 cam640)) = resize 1280 960 cam640.
Proof.
  split; [reflexivity|]. split; [reflexivity|].
  apply (resize_twice cam640 320 240 1280 960); (reflexivity || discriminate).
Defined.

(** C9: [resize] reassigns only the intrinsics: the pose and the clip
    distances after the call are those before it, whether it succeeds or
    raises. *)
Theorem resize_frame (new_width new_height : Z) (c : VirtualCamera) :
  let c' := snd (resize new_width new_height c) in
  pose c' = pose c /\ z_near c' = z_near c /\ z_far c' = z_far c.
Proof.
  cbv zeta. unfold resize.
  destruct (div_int (IZR new_width) (width (intrinsics c)));
    destruct (div_int (IZR new_height) (height (intrinsics c)));
    simpl; auto.
Qed.

(** C10: with positive old width and height, [resize] succeeds and the new
    principal-point offset from the new geometric center is the old offset
    scaled by that axis's factor; hence, whenever the new size is nonzero
    (where the ratio is defined), the ratio of the offset to the size is the
    same before and after, on each axis independently. *)
Theorem resize_offset_ratio (c : VirtualCamera) (new_width new_height : Z)
  (Hw : (0 < width (intrinsics c))%Z) (Hh : (0 < height (intrinsics c))%Z) :
  let k := intrinsics c in
  let r := resize new_width new_height c in
  let k' := intrinsics (snd r) in
  fst r = Ok tt /\
  cx k' - (IZR new_width - 1) / 2 =
    IZR new_width / IZR (width k) * (cx k - (IZR (width k) - 1) / 2) /\
  cy k' - (IZR new_height - 1) / 2 =
    IZR new_height / IZR (height k) * (cy k - (IZR (height k) - 1) / 2) /\
  (new_width <> 0%Z ->
     (cx k' - (IZR (width k') - 1) / 2) / IZR (width k') =
     (cx k - (IZR (width k) - 1) / 2) / IZR (width k)) /\
  (new_height <> 0%Z ->
     (cy k' - (IZR (height k') - 1) / 2) / IZR (height k') =
     (cy k - (IZR (height k) - 1) / 2) / IZR (height k)).
Proof.
  pose proof (IZR_pos_neq _ Hw) as Hw'. pose proof (IZR_pos_neq _ Hh) as Hh'.
  cbv zeta. rewrite resize_unfold by lia. simpl.
  unfold resized_spec; simpl.
  split; [reflexivity|]. split; [field; exact Hw'|]. split; [field; exact Hh'|].
  split; intros Hn; apply not_0_IZR in Hn; field; auto.
Qed.

Lemma resize_offset_ratio_witness :
  let c := mkCamera (mkIntrinsics "camera" 500 500 330 240 0 480 640) None (1/10) 10 in
  (0 < width (intrinsics c))%Z /\ (0 < height (intrinsics c))%Z /\
  (let k := intrinsics c in
   let r := resize 1280 480 c in
   let k' := intrinsics (snd r) in
   fst r = Ok tt /\
   cx k' - (IZR 1280 - 1) / 2 =
     IZR 1280 / IZR (width k) * (cx k - (IZR (width k) - 1) / 2) /\
   cy k' - (IZR 480 - 1) / 2 =
     IZR 480 / IZR (height k) * (cy k - (IZR (height k) - 1) / 2) /\
   (1280%Z <> 0%Z ->
      (cx k' - (IZR (width k') - 1) / 2) / IZR (width k') =
      (cx k - (IZR (width k) - 1) / 2) / IZR (width k)) /\
   (480%Z <> 0%Z ->
      (cy k' - (IZR (height k') - 1) / 2) / IZR (height k') =
      (cy k - (IZR (height k) - 1) / 2) / IZR (height k))).
Proof.
  cbv zeta. split; [reflexivity|]. split; [reflexivity|].
  exact (resize_offset_ratio
           (mkCamera (mkIntrinsics "camera" 500 500 330 240 0 480 640) None (1/10) 10)
           1280 480 eq_refl eq_refl).
Defined.

(** ** Construction *)

(** C6 (as stated fails): the constructor accepts a [CameraIntrinsics] of
    width 0, which is not a valid intrinsics value (positive width and
    height), so "raises iff the intrinsics are invalid" does not hold. *)
Lemma new_accepts_zero_width :
  new (PyIntrinsics K_zero_width) None (1/10) 10 =
    Ok (mkCamera K_zero_width None (1/10) 10) /\
  ~ (0 < width K_zero_width)%Z.
Proof. split; [reflexivity | simpl; lia]. Qed.

(** C6 (amended): [VirtualCamera(intrinsics, pose, z_near, z_far)] raises,
    and then only [ValueError], exactly when [intrinsics] is not a
    [CameraIntrinsics] object; width and height are not checked, nor are
    [z_near] and [z_far]; on success the camera holds the given intrinsics,
    pose, [z_near] and [z_far] unchanged. *)
Theorem new_spec (i : pyobj) (p : option mat) (zn zf : R) :
  (forall e, new i p zn zf = Raise e -> e = ValueError) /\
  ((exists e, new i p zn zf = Raise e) <-> (forall k, i <> PyIntrinsics k)) /\
  (forall k, new (PyIntrinsics k) p zn zf = Ok (mkCamera k p zn zf)).
Proof.
  split; [| split].
  - intros e. destruct i; simpl; congruence.
  - split.
    + intros [e He] k Hk. subst i. discriminate He.
    + intros Hk. destruct i as [|k|].
      * exists ValueError. reflexivity.
      * exfalso. exact (Hk k eq_refl).
      * exists ValueError. reflexivity.
  - intros k. reflexivity.
Qed.

(** ** The view matrix *)

(** C7: reading [V] on a camera whose pose is unset fails ([self.pose] is
    [None], so [self.pose.copy()] raises [AttributeError]); it never returns
    a matrix. *)
Theorem V_pose_unset (c : VirtualCamera) (Hp : pose c = None) :
  V c = Raise AttributeError /\ (forall m, V c <> Ok m).
Proof.
  unfold V. rewrite Hp. split; [reflexivity | discriminate].
Qed.

Lemma V_pose_unset_witness :
  pose cam640 = None /\ V cam640 = Raise AttributeError /\ (forall m, V cam640 <> Ok m).
Proof. split; [reflexivity | apply V_pose_unset; reflexivity]. Defined.

(** C3 (code defect): with the pose set to the identity, reading [V] raises
    [NameError] (the name [V_inv_GL] is unbound) instead of returning
    [inv(reflectYZ(pose))]; no set pose yields a matrix. *)
Theorem V_identity_pose_raises :
  V (set_pose cam640 (Some ident)) = Raise NameError /\
  (forall m, V (set_pose cam640 (Some ident)) <> Ok m).
Proof. split; [reflexivity | discriminate]. Qed.

(** ** Pose independence of the projection *)

(** C8: [P] reads only the intrinsics and the clip distances: two cameras
    that agree on them (whatever their poses) give the same [P], and
    assigning any pose (or [None]) leaves [P] unchanged. *)
Theorem P_pose_independent (c1 c2 : VirtualCamera)
  (Hk : intrinsics c1 = intrinsics c2) (Hn : z_near c1 = z_near c2)
  (Hf : z_far c1 = z_far c2) :
  P c1 = P c2 /\ (forall p, P (set_pose c1 p) = P c1).
Proof.
  split.
  - unfold P. rewrite Hk, Hn, Hf. reflexivity.
  - intros p. reflexivity.
Qed.

Lemma P_pose_independent_witness :
  intrinsics cam640 = intrinsics (set_pose cam640 (Some ident)) /\
  z_near cam640 = z_near (set_pose cam640 (Some ident)) /\
  z_far cam640 = z_far (set_pose cam640 (Some ident)) /\
  P cam640 = P (set_pose cam640 (Some ident)) /\
  (forall p, P (set_pose cam640 p) = P cam640).
Proof.
  split; [reflexivity|]. split; [reflexivity|]. split; [reflexivity|].
  apply P_pose_independent; reflexivity.
Defined.

(** ** Further properties of the camera *)

Lemma P_ok_iff (c : VirtualCamera) (m : mat) :
  P c = Ok m <->
  (width (intrinsics c) <> 0)%Z /\ (height (intrinsics c) <> 0)%Z /\
  z_far c <> z_near c /\ m = P_spec c.
Proof.
  unfold P, div_int, div_float.
  destruct (Z.eqb_spec (width (intrinsics c)) 0) as [Hw|Hw]; simpl.
  { split; [discriminate | intros (H & _); contradiction]. }
  destruct (Z.eqb_spec (height (intrinsics c)) 0) as [Hh|Hh]; simpl.
  { split; [discriminate | intros (_ & H & _); contradiction]. }
  destruct (Req_EM_T (z_far c - z_near c) 0) as [Hz|Hz]; simpl.
  { split; [discriminate | intros (_ & _ & H & _); exfalso; apply H; lra]. }
  assert (Hw' : IZR (width (intrinsics c)) <> 0) by (apply not_0_IZR; exact Hw).
  assert (Hh' : IZR (height (intrinsics c)) <> 0) by (apply not_0_IZR; exact Hh).
  assert (E : mat_set (mat_set (mat_set (mat_set (mat_set (mat_set (mat_set zeros 0 0
                 (2 * fx (intrinsics c) / IZR (width (intrinsics c)))) 1 1
                 (2 * fy (intrinsics c) / IZR (height (intrinsics c)))) 0 2
                 (1 - 2 * cx (intrinsics c) / IZR (width (intrinsics c)))) 1 2
                 (2 * cy (intrinsics c) / IZR (height (intrinsics c)) - 1)) 2 2
                 (- (z_far c + z_near c) / (z_far c - z_near c))) 3 2 (-1)) 2 3
                 (- (2 * z_far c * z_near c) / (z_far c - z_near c)) = P_spec c).
  { apply functional_extensionality; intros i.
    apply functional_extensionality; intros j.
    unfold mat_set, zeros, P_spec.
    destruct i as [|[|[|[|i]]]]; destruct j as [|[|[|[|j]]]]; simpl;
      try reflexivity; field; auto. }
  rewrite E. split.
  - intros H. injection H as <-. repeat split; auto. intros H. apply Hz. lra.
  - intros (_ & _ & _ & ->). reflexivity.
Qed.

Lemma P_ok_entries (c : VirtualCamera) (m : mat) :
  P c = Ok m ->
  IZR (width (intrinsics c)) <> 0 /\ IZR (height (intrinsics c)) <> 0 /\
  z_far c - z_near c <> 0 /\ m = P_spec c.
Proof.
  intros H. apply P_ok_iff in H as (Hw & Hh & Hz & ->).
  repeat split; try (apply not_0_IZR; assumption).
  apply Rminus_neq_0. exact Hz.
Qed.

(** X1: reading [P] raises exactly when the width is 0, the height is 0 or
    [z_far = z_near], and the exception is then [ZeroDivisionError];
    otherwise it returns a matrix. *)
Theorem P_raises_iff (c : VirtualCamera) :
  ((exists e, P c = Raise e) <->
   (width (intrinsics c) = 0%Z \/ height (intrinsics c) = 0%Z \/ z_far c = z_near c)) /\
  (forall e, P c = Raise e -> e = ZeroDivisionError).
Proof.
  split.
  - split.
    + intros [e He].
      destruct (Z.eq_dec (width (intrinsics c)) 0) as [Hw|Hw]; [now left|].
      destruct (Z.eq_dec (height (intrinsics c)) 0) as [Hh|Hh]; [now right; left|].
      destruct (Req_dec (z_far c) (z_near c)) as [Hz|Hz]; [now right; right|].
      assert (Hok : P c = Ok (P_spec c)) by (apply P_ok_iff; auto).
      congruence.
    + intros H. unfold P, div_int, div_float.
      destruct H as [Hw | [Hh | Hz]].
      * rewrite Hw. simpl. eauto.
      * rewrite Hh. destruct (Z.eqb _ 0); simpl; eauto.
      * destruct (Z.eqb (width _) 0); simpl; [eauto|].
        destruct (Z.eqb (height _) 0); simpl; [eauto|].
        destruct (Req_EM_T (z_far c - z_near c) 0) as [_|Hne]; simpl; [eauto|].
        exfalso. apply Hne. rewrite Hz. ring.
  - intros e. unfold P, div_int, div_float.
    destruct (Z.eqb (width _) 0); simpl; [congruence|].
    destruct (Z.eqb (height _) 0); simpl; [congruence|].
    destruct (Req_EM_T (z_far c - z_near c) 0); simpl; congruence.
Qed.

(** X2: whenever [P] returns a matrix, it agrees with the pinhole model:
    a point [(x, y, z)] in OpenGL camera coordinates with [z <> 0] has clip
    [w = -z], and the viewport maps it to the pixel
    [(fx X/Z + cx, fy Y/Z + cy)] of the OpenCV point [(X, Y, Z) = (x, -y, -z)]. *)
Theorem P_pinhole (c : VirtualCamera) (m : mat) (HP : P c = Ok m)
  (x y z : R) (Hz : z <> 0) :
  let k := intrinsics c in
  let cl := clip m x y z in
  cl 3%nat = - z /\
  ndc_to_pixel (width k) (height k) cl =
    (fx k * x / - z + cx k, fy k * - y / - z + cy k).
Proof.
  apply P_ok_entries in HP as (Hw & Hh & _ & ->).
  cbv zeta. unfold clip, ndc_to_pixel, P_spec. simpl.
  split; [ring|]. f_equal; field; auto.
Qed.

Lemma P_pinhole_witness :
  P cam640 = Ok (P_spec cam640) /\ -5 <> 0 /\
  (let k := intrinsics cam640 in
   let cl := clip (P_spec cam640) 1 2 (-5) in
   cl 3%nat = - -5 /\
   ndc_to_pixel (width k) (height k) cl =
     (fx k * 1 / - -5 + cx k, fy k * - 2 / - -5 + cy k)).
Proof.
  assert (HP : P cam640 = Ok (P_spec cam640)) by (apply P_ok_iff; simpl; repeat split; try lia; lra).
  split; [exact HP|]. split; [lra|].
  apply (P_pinhole cam640 (P_spec cam640) HP 1 2 (-5)). lra.
Defined.

(** X3: whenever [P] returns a matrix and both clip distances are nonzero,
    points at depth [z_near] (OpenGL [z = -z_near]) land on the normalized
    depth [-1] and points at depth [z_far] on [+1]. *)
Theorem P_depth_range (c : VirtualCamera) (m : mat) (HP : P c = Ok m)
  (Hn : z_near c <> 0) (Hf : z_far c <> 0) (x y : R) :
  clip m x y (- z_near c) 2%nat / clip m x y (- z_near c) 3%nat = -1 /\
  clip m x y (- z_far c) 2%nat / clip m x y (- z_far c) 3%nat = 1.
Proof.
  apply P_ok_entries in HP as (_ & _ & Hz & ->).
  unfold clip, P_spec. simpl. split; field; auto.
Qed.

Lemma P_depth_range_witness :
  P cam640 = Ok (P_spec cam640) /\ z_near cam640 <> 0 /\ z_far cam640 <> 0 /\
  clip (P_spec cam640) 1 2 (- z_near cam640) 2%nat /
    clip (P_spec cam640) 1 2 (- z_near cam640) 3%nat = -1 /\
  clip (P_spec cam640) 1 2 (- z_far cam640) 2%nat /
    clip (P_spec cam640) 1 2 (- z_far cam640) 3%nat = 1.
Proof.
  assert (HP : P cam640 = Ok (P_spec cam640)) by (apply P_ok_iff; simpl; repeat split; try lia; lra).
  split; [exact HP|]. split; [simpl; lra|]. split; [simpl; lra|].
  apply (P_depth_range cam640 (P_spec cam640) HP); simpl; lra.
Defined.

(** X4: [resize] fails exactly when the current width or height is 0: it
    then raises [ZeroDivisionError] and leaves the camera unchanged. *)
Theorem resize_raises_iff (new_width new_height : Z) (c : VirtualCamera) :
  (fst (resize new_width new_height c) <> Ok tt <->
   (width (intrinsics c) = 0%Z \/ height (intrinsics c) = 0%Z)) /\
  ((width (intrinsics c) = 0%Z \/ height (intrinsics c) = 0%Z) ->
   resize new_width new_height c = (Raise ZeroDivisionError, c)).
Proof.
  assert (Hz : (width (intrinsics c) = 0%Z \/ height (intrinsics c) = 0%Z) ->
               resize new_width new_height c = (Raise ZeroDivisionError, c)).
  { intros [Hw|Hh]; unfold resize, div_int.
    - rewrite Hw. reflexivity.
    - rewrite Hh. destruct (Z.eqb _ 0); reflexivity. }
  split; [|exact Hz]. split.
  - intros H.
    destruct (Z.eq_dec (width (intrinsics c)) 0) as [Hw|Hw]; [now left|].
    destruct (Z.eq_dec (height (intrinsics c)) 0) as [Hh|Hh]; [now right|].
    exfalso. apply H. rewrite resize_unfold by assumption. reflexivity.
  - intros H. rewrite (Hz H). discriminate.
Qed.


(** X7: how [resize] moves rendered pixels.  If [P] gives [m] before and
    [m'] after [resize new_width new_height], then with
    [sx = new_width/width] and [sy = new_height/height], every point
    [(x, y, z)] with [z <> 0] lands at [u' + 1/2 = sx (u + 1/2)] horizontally
    and [v' + 1/2 = sy (v + 1/2) + (sx - sy) fy Y/Z] vertically
    ([Y/Z = (-y)/(-z)]); in particular, when [sx = sy] the image is scaled
    uniformly about the pixel-grid corner. *)
Theorem resize_pixel_scaling (c c' : VirtualCamera) (m m' : mat)
  (new_width new_height : Z)
  (HR : resize new_width new_height c = (Ok tt, c'))
  (HP : P c = Ok m) (HP' : P c' = Ok m') (x y z : R) (Hz : z <> 0) :
  let k := intrinsics c in
  let sx := IZR new_width / IZR (width k) in
  let sy := IZR new_height / IZR (height k) in
  let uv := ndc_to_pixel (width k) (height k) (clip m x y z) in
  let uv' := ndc_to_pixel new_width new_height (clip m' x y z) in
  fst uv' + 1/2 = sx * (fst uv + 1/2) /\
  snd uv' + 1/2 = sy * (snd uv + 1/2) + (sx - sy) * fy k * (- y) / (- z) /\
  (sx = sy -> snd uv' + 1/2 = sy * (snd uv + 1/2)).
Proof.
  apply P_ok_entries in HP as (Hw & Hh & Hzz & ->).
  apply P_ok_entries in HP' as (Hw' & Hh' & Hzz' & ->).
  assert (Hw0 : width (intrinsics c) <> 0%Z) by (intros E; apply Hw; rewrite E; reflexivity).
  assert (Hh0 : height (intrinsics c) <> 0%Z) by (intros E; apply Hh; rewrite E; reflexivity).
  rewrite resize_unfold in HR by assumption. injection HR as <-.
  simpl in Hw', Hh'.
  cbv zeta. unfold ndc_to_pixel, clip, P_spec, resized_spec. simpl.
  split; [|split].
  - field; auto.
  - field; auto.
  - intros Hs. rewrite <- Hs.
    replace (IZR new_height)
      with (IZR new_width / IZR (width (intrinsics c)) * IZR (height (intrinsics c)))
      by (rewrite Hs; field; auto).
    field; auto.
Qed.

Lemma resize_pixel_scaling_witness :
  let c' := mkCamera (resized_spec K640 1280 960) None (1/10) 10 in
  resize 1280 960 cam640 = (Ok tt, c') /\
  P cam640 = Ok (P_spec cam640) /\ P c' = Ok (P_spec c') /\ -5 <> 0 /\
  (let k := intrinsics cam640 in
   let sx := IZR 1280 / IZR (width k) in
   let sy := IZR 960 / IZR (height k) in
   let uv := ndc_to_pixel (width k) (height k) (clip (P_spec cam640) 1 2 (-5)) in
   let uv' := ndc_to_pixel 1280 960 (clip (P_spec c') 1 2 (-5)) in
   fst uv' + 1/2 = sx * (fst uv + 1/2) /\
   snd uv' + 1/2 = sy * (snd uv + 1/2) + (sx - sy) * fy k * (- 2) / (- -5) /\
   (sx = sy -> snd uv' + 1/2 = sy * (snd uv + 1/2))).
Proof.
  cbv zeta.
  assert (HR : resize 1280 960 cam640 =
               (Ok tt, mkCamera (resized_spec K640 1280 960) None (1/10) 10))
    by (rewrite resize_unfold by (simpl; lia); reflexivity).
  assert (HP : P cam640 = Ok (P_spec cam640))
    by (apply P_ok_iff; simpl; repeat split; try lia; lra).
  assert (HP' : P (mkCamera (resized_spec K640 1280 960) None (1/10) 10) =
                Ok (P_spec (mkCamera (resized_spec K640 1280 960) None (1/10) 10)))
    by (apply P_ok_iff; simpl; repeat split; try lia; lra).
  split; [exact HR|]. split; [exact HP|]. split; [exact HP'|]. split; [lra|].
  exact (resize_pixel_scaling cam640 _ _ _ 1280 960 HR HP HP' 1 2 (-5)
           ltac:(lra)).
Defined.
